(** * A research agent on PocketFlow: the decision parser and the agent loop

    Shallow embedding of [src/pc.py] and [src/pc1.py], two variants of one
    program: a three-node flow (decide / search / answer) around a language
    model, a web search and a YAML decision parser.

    Python values are an inductive type, the [shared] store is a finite map
    from key names to values, a raised exception is the [Raise] branch of a
    result type, and the three external collaborators (PyYAML, the chat
    client, the search client) are the fields of a class. *)

From Stdlib Require Import ZArith Ascii Bool Lia.
From Stdlib Require String.
From stdpp Require Import base option gmap strings.

(* stdpp keeps [String.append] folded; the proofs below unfold it on a
   constructor. *)
#[local] Arguments String.append !_ _ / : simpl nomatch.

(** ** Python values and exceptions *)

Set Warnings "-register-all".

(** The values the program handles.  [VObj] stands for every other object a
    YAML document can load to (float, date, bytes, set), of which the code
    only ever observes its truth value and whether it can be hashed. *)
Inductive pyval : Type :=
| VNone
| VBool (b : bool)
| VInt (z : Z)
| VStr (s : string)
| VList (l : list pyval)
| VDict (items : list (pyval * pyval))
| VObj (truthy hashable : bool).

(** The exception classes that occur.  [YAMLError] is [yaml.YAMLError] with
    any of its subclasses, carrying [str(exc)]; [OtherError] is any other
    subclass of [Exception]. *)
Inductive pyexn : Type :=
| YAMLError (msg : string)
| KeyError (key : string)
| TypeError
| AttributeError
| OtherError (msg : string).

Inductive result (A : Type) : Type :=
| Ok (a : A)
| Raise (e : pyexn).
Arguments Ok {A} a.
Arguments Raise {A} e.

(** Sequencing: a raised exception propagates.  With these two instances
    [x ← r; k] runs [r] and, when it returns, [k] on its value. *)
#[global] Instance result_ret : MRet result := fun _ a => Ok a.
#[global] Instance result_bind : MBind result := fun _ _ k r =>
  match r with
  | Ok a => k a
  | Raise e => Raise e
  end.

Definition returns {A : Type} (r : result A) : Prop := exists a, r = Ok a.

(** Python's truth value, as used by [or] and by [Flow.get_next_node]. *)
Definition truth (v : pyval) : bool :=
  match v with
  | VNone => false
  | VBool b => b
  | VInt z => negb (Z.eqb z 0)
  | VStr s => negb (String.eqb s "")
  | VList l => match l with [] => false | _ => true end
  | VDict items => match items with [] => false | _ => true end
  | VObj t _ => t
  end.

(** [hash(v)] succeeds. *)
Definition hashable (v : pyval) : bool :=
  match v with
  | VList _ | VDict _ => false
  | VObj _ h => h
  | _ => true
  end.

(** [v == k] for a string literal [k]: only a [str] equals a [str]. *)
Definition eq_str (v : pyval) (k : string) : bool :=
  match v with
  | VStr s => String.eqb s k
  | _ => false
  end.

(** Lookup of a string key in the items of a dict. *)
Fixpoint lookup_key (k : string) (items : list (pyval * pyval)) : option pyval :=
  match items with
  | [] => None
  | (k', v) :: rest => if eq_str k' k then Some v else lookup_key k rest
  end.

(** [v[k]]: a [KeyError] on a dict without the key, a [TypeError] on
    anything that is not a dict (a str, a list, a number ... indexed by a
    str). *)
Definition subscript (v : pyval) (k : string) : result pyval :=
  match v with
  | VDict items =>
      match lookup_key k items with
      | Some x => Ok x
      | None => Raise (KeyError k)
      end
  | _ => Raise TypeError
  end.

(** [v.get(k, dflt)]: only a dict has the method. *)
Definition dict_get (v : pyval) (k : string) (dflt : pyval) : result pyval :=
  match v with
  | VDict items =>
      match lookup_key k items with
      | Some x => Ok x
      | None => Ok dflt
      end
  | _ => Raise AttributeError
  end.

(** ** Strings

    A [str] is a [string]; its characters are the code points below 256. *)

(** [str.isspace] on one character, which is also the class [\s] of [re]
    on a [str] pattern: TAB..CR, FS..US, space, NEL and NBSP. *)
Definition isspace (c : ascii) : bool :=
  let n := nat_of_ascii c in
  ((9 <=? n) && (n <=? 13)) || ((28 <=? n) && (n <=? 32))
  || (n =? 133) || (n =? 160).

Fixpoint lstrip (s : string) : string :=
  match s with
  | EmptyString => EmptyString
  | String c s' => if isspace c then lstrip s' else s
  end.

Fixpoint rstrip (s : string) : string :=
  match s with
  | EmptyString => EmptyString
  | String c s' =>
      match rstrip s' with
      | EmptyString => if isspace c then EmptyString else String c EmptyString
      | r => String c r
      end
  end.

(** [s.strip()] *)
Definition strip (s : string) : string := rstrip (lstrip s).

(** [s.startswith(p)] *)
Fixpoint startswith (p s : string) : bool :=
  match p, s with
  | EmptyString, _ => true
  | String a p', String b s' => Ascii.eqb a b && startswith p' s'
  | String _ _, EmptyString => false
  end.

(** [s[n:]] *)
Fixpoint drop_chars (n : nat) (s : string) : string :=
  match n, s with
  | O, _ => s
  | S n', String _ s' => drop_chars n' s'
  | S _, EmptyString => EmptyString
  end.

(** [sep.join(parts)] *)
Fixpoint join (sep : string) (parts : list string) : string :=
  match parts with
  | [] => ""
  | [p] => p
  | p :: rest => p +:+ sep +:+ join sep rest
  end.

(** ** The fenced-block pattern

    [re.search(r"```yaml\s*(.*?)\s*```", response, re.DOTALL)], written out
    for this one pattern. *)

Definition fence : string := "```".
Definition opener : string := "```yaml".

(** The tail [\s*```] of the pattern matches at the head of [s].  The
    greedy [\s*] takes the whole run of white space: a back-quote is no
    white space, so no shorter run can be followed by the fence. *)
Definition closes (s : string) : bool := startswith fence (lstrip s).

(** The lazy group [(.*?)] followed by [\s*```]: the shortest prefix of [s]
    after which the tail matches ([.] matches every character under
    [re.DOTALL]); [None] when no prefix does. *)
Fixpoint lazy_group (s : string) : option string :=
  if closes s then Some ""
  else match s with
       | EmptyString => None
       | String c s' =>
           match lazy_group s' with
           | Some g => Some (String c g)
           | None => None
           end
       end.

(** The pattern anchored at the head of [s], giving [group(1)].  After the
    literal, the greedy [\s*] takes the whole run of white space; giving
    some of it back would only lengthen the candidates for the group, which
    under [re.DOTALL] already reach to the end of the text. *)
Definition match_here (s : string) : option string :=
  if startswith opener s
  then lazy_group (lstrip (drop_chars (String.length opener) s))
  else None.

(** [re.search]: the match at the leftmost position that has one. *)
Fixpoint re_search (s : string) : option string :=
  match match_here s with
  | Some g => Some g
  | None =>
      match s with
      | EmptyString => None
      | String _ s' => re_search s'
      end
  end.

(** ** The external collaborators

    Three libraries stand behind the program; none of them is part of it.
    Each is a field of the class below, and nothing is assumed of them
    beyond their types. *)

(** One record of [DDGS().text]. *)
Record search_hit : Type := mk_hit { title : string; href : string; body : string }.

Class Collaborators : Type := {
  (** [yaml.safe_load] on a [str]: the loaded object or the exception. *)
  safe_load : string -> result pyval;
  (** [ollama.chat]: the response to the prompt, given how many calls came
      before, or the exception of the client. *)
  chat : nat -> string -> result pyval;
  (** [DDGS().text(query, max_results)]. *)
  DDGS_text : pyval -> nat -> result (list search_hit);
  (** [format(v)] for a [v] that is not a [str]. *)
  format_other : pyval -> string
}.

(** The shared store and the number of model calls made so far. *)
Record state : Type := mk_state { shared : gmap string pyval; calls : nat }.

Definition set_shared (k : string) (v : pyval) (st : state) : state :=
  mk_state (<[k := v]> (shared st)) (calls st).

(** [shared[k]] *)
Definition shared_item (st : state) (k : string) : result pyval :=
  match shared st !! k with
  | Some v => Ok v
  | None => Raise (KeyError k)
  end.

(** [shared.get(k, default)] *)
Definition shared_get (st : state) (k : string) (dflt : pyval) : pyval :=
  default dflt (shared st !! k).

(** ** What the two files share

    [call_llm], [extract_decision], [search_web_duckduckgo], the two prompts
    and every [prep] and [exec] read the same in [pc.py] and [pc1.py]. *)

Section Common.
Context `{Collaborators}.

(** [call_llm]: every exception of the client, and of the two [get]s on its
    response, is caught by [except Exception] and turned into [""]. *)
Definition call_llm (n : nat) (prompt : string) : pyval :=
  match
    response ← chat n prompt;
    message ← dict_get response "message" (VDict []);
    dict_get message "content" (VStr "")
  with
  | Ok content => content
  | Raise _ => VStr ""
  end.

(** The text handed to the YAML loader: [group(1).strip()] of the first
    fenced block, or the stripped response when there is none. *)
Definition yaml_text (response : string) : string :=
  match re_search response with
  | Some g => strip g
  | None => strip response
  end.

(** The record returned when the loader raises a [YAMLError]. *)
Definition fallback (raw msg : string) : pyval :=
  VDict [(VStr "raw", VStr raw); (VStr "_error", VStr msg)].

(** The second half of [extract_decision], on the text chosen by the
    first: [yaml.safe_load(yaml_text) or {}], where only a [yaml.YAMLError]
    is caught. *)
Definition load_or_fallback (text : string) : result pyval :=
  match safe_load text with
  | Ok v => Ok (if truth v then v else VDict [])
  | Raise (YAMLError msg) => Ok (fallback text msg)
  | Raise e => Raise e
  end.

Definition extract_decision (response : string) : result pyval :=
  load_or_fallback (yaml_text response).

(** One result, as the f-string lays it out. *)
Definition format_hit (r : search_hit) : string :=
  "Title: " +:+ title r +:+ "
URL: " +:+ href r +:+ "
Snippet: " +:+ body r.

Definition search_web_duckduckgo (query : pyval) : result string :=
  results ← DDGS_text query 5;
  mret (join "

" (map format_hit results)).

(** [format(v)], as an f-string and [str.format] apply it. *)
Definition fmt (v : pyval) : string :=
  match v with
  | VStr s => s
  | _ => format_other v
  end.

(** [a + b] where the code concatenates strings: a [TypeError] unless both
    are [str]. *)
Definition add_str (a b : pyval) : result pyval :=
  match a, b with
  | VStr x, VStr y => Ok (VStr (x +:+ y))
  | _, _ => Raise TypeError
  end.

Definition no_previous_search : string := "No previous search".

(** The prompt of [DecideAction.exec]. *)
Definition decide_prompt (question context : pyval) : string :=
  "
### CONTEXT
You are a research assistant that can search the web.
Question: " +:+ fmt question +:+ "
Previous Research: " +:+ fmt context +:+ "

### ACTION SPACE
[1] search
  Description: Look up more information on the web
  Parameters:
    - query (str): What to search for

[2] answer
  Description: Answer the question with current knowledge
  Parameters:
    - answer (str): Final answer to the question

## NEXT ACTION
Decide the next action based on the context and available actions.
Return your response in this format:

```yaml
thinking: |
    <your step-by-step reasoning process>
action: search OR answer
reason: <why you chose this action>
answer: <if action is answer>
search_query: <specific search query if action is search>
```
IMPORTANT: Make sure to:
1. Use proper indentation (4 spaces) for all multi-line fields
2. Use the | character for multi-line text fields
3. Keep single-line fields without the | character
".

(** The prompt of [AnswerQuestion.exec]. *)
Definition answer_prompt (question context : pyval) : string :=
  "
### CONTEXT
Based on the following information, answer the question.
Question: " +:+ fmt question +:+ "
Research: " +:+ fmt context +:+ "

## YOUR ANSWER:
Provide a comprehensive answer using the research results.
".

(** [DecideAction.prep] *)
Definition DecideAction_prep (st : state) : result (pyval * pyval) :=
  let context := shared_get st "context" (VStr no_previous_search) in
  question ← shared_item st "question";
  mret (question, context).

(** The prompt that [DecideAction.exec] builds from what [prep] returned. *)
Definition DecideAction_prompt (prep_res : pyval * pyval) : string :=
  let '(question, context) := prep_res in decide_prompt question context.

(** [DecideAction.exec]: one model call, then the parser; [re.search]
    raises a [TypeError] on a reply that is not a [str]. *)
Definition DecideAction_exec (n : nat) (prep_res : pyval * pyval) : result pyval :=
  match call_llm n (DecideAction_prompt prep_res) with
  | VStr response => extract_decision response
  | _ => Raise TypeError
  end.

(** [SearchWeb.prep] *)
Definition SearchWeb_prep (st : state) : result pyval :=
  shared_item st "search_query".

(** [SearchWeb.exec] *)
Definition SearchWeb_exec (search_query : pyval) : result string :=
  search_web_duckduckgo search_query.

(** [AnswerQuestion.prep] *)
Definition AnswerQuestion_prep (st : state) : result (pyval * pyval) :=
  question ← shared_item st "question";
  mret (question, shared_get st "context" (VStr "")).

(** [AnswerQuestion.exec] *)
Definition AnswerQuestion_exec (n : nat) (inputs : pyval * pyval) : pyval :=
  let '(question, context) := inputs in
  call_llm n (answer_prompt question context).

(** [AnswerQuestion.post] *)
Definition AnswerQuestion_post (st : state) (exec_res : pyval) : state * pyval :=
  (set_shared "answer" exec_res st, VStr "done").

(** ** The flow

    PocketFlow's [Node._run] and [Flow._orch], over the graph that
    [create_agent_flow] builds. *)

Inductive node : Type := Decide | Search | Answer.

(** [curr.successors.get(key)], for the three edges of [create_agent_flow]. *)
Definition successors (curr : node) (key : string) : option node :=
  match curr with
  | Decide =>
      if String.eqb key "search" then Some Search
      else if String.eqb key "answer" then Some Answer
      else None
  | Search => if String.eqb key "decide" then Some Decide else None
  | Answer => None
  end.

(** [Flow.get_next_node]: [curr.successors.get(action or "default")].  A key
    that cannot be hashed makes [dict.get] raise a [TypeError]; a key that
    is no [str] is never found. *)
Definition get_next_node (curr : node) (action : pyval) : result (option node) :=
  let key := if truth action then action else VStr "default" in
  match key with
  | VStr k => Ok (successors curr k)
  | _ => if hashable key then Ok None else Raise TypeError
  end.

(** The two posts on which the files differ. *)
Record posts : Type := mk_posts {
  decide_post : state -> pyval -> result (state * pyval);
  search_post : state -> string -> result (state * pyval)
}.

(** [Node._run]: [prep], [exec], [post]; with [max_retries=1] an exception
    of [exec] is raised again by [exec_fallback].  The counter moves with
    each model call. *)
Definition run_node (P : posts) (curr : node) (st : state) : result (state * pyval) :=
  match curr with
  | Decide =>
      prep_res ← DecideAction_prep st;
      exec_res ← DecideAction_exec (calls st) prep_res;
      decide_post P (mk_state (shared st) (S (calls st))) exec_res
  | Search =>
      prep_res ← SearchWeb_prep st;
      exec_res ← SearchWeb_exec prep_res;
      search_post P st exec_res
  | Answer =>
      prep_res ← AnswerQuestion_prep st;
      let exec_res := AnswerQuestion_exec (calls st) prep_res in
      mret (AnswerQuestion_post (mk_state (shared st) (S (calls st))) exec_res)
  end.

(** [Flow._orch]: run the current node and follow its action until no
    successor is found.  The loop has no bound of its own, so the model
    takes fuel: [None] when it runs out, otherwise the final state with the
    nodes that ran, or the exception that ended the run. *)
Fixpoint orch (P : posts) (fuel : nat) (curr : node) (st : state)
  : option (result (state * list node)) :=
  match fuel with
  | O => None
  | S fuel' =>
      match run_node P curr st with
      | Raise e => Some (Raise e)
      | Ok (st', action) =>
          match get_next_node curr action with
          | Raise e => Some (Raise e)
          | Ok None => Some (Ok (st', [curr]))
          | Ok (Some nxt) =>
              match orch P fuel' nxt st' with
              | Some (Ok (st'', ran)) => Some (Ok (st'', curr :: ran))
              | other => other
              end
          end
      end
  end.

(** [agent_flow.run(shared)] on [shared = {"question": question}]. *)
Definition run_agent (P : posts) (fuel : nat) (question : string)
  : option (result (state * list node)) :=
  orch P fuel Decide (mk_state {[ "question" := VStr question ]} 0).

End Common.

(** ** [pc.py] *)

Module Pc.
Section Agent.
Context `{Collaborators}.

(** [DecideAction.post]: subscripts throughout. *)
Definition DecideAction_post (st : state) (exec_res : pyval) : result (state * pyval) :=
  action ← subscript exec_res "action";
  st' ← (if eq_str action "search"
         then search_query ← subscript exec_res "search_query";
              mret (set_shared "search_query" search_query st)
         else answer ← subscript exec_res "answer";
              mret (set_shared "context" answer st));
  action' ← subscript exec_res "action";
  mret (st', action').

(** [SearchWeb.post]: a chain of [+] from the left. *)
Definition SearchWeb_post (st : state) (exec_res : string) : result (state * pyval) :=
  let previous := shared_get st "context" (VStr "") in
  a ← add_str previous (VStr "

SEARCH: ");
  search_query ← shared_item st "search_query";
  b ← add_str a search_query;
  c ← add_str b (VStr "
RESULTS: ");
  context ← add_str c (VStr exec_res);
  mret (set_shared "context" context st, VStr "decide").

Definition agent : posts := mk_posts DecideAction_post SearchWeb_post.

End Agent.
End Pc.

(** ** [pc1.py] *)

Module Pc1.
Section Agent.
Context `{Collaborators}.

(** [DecideAction.post]: [get] with defaults throughout. *)
Definition DecideAction_post (st : state) (exec_res : pyval) : result (state * pyval) :=
  action ← dict_get exec_res "action" VNone;
  st' ← (if eq_str action "search"
         then search_query ← dict_get exec_res "search_query" (VStr "");
              mret (set_shared "search_query" search_query st)
         else answer ← dict_get exec_res "answer" (VStr "");
              mret (set_shared "context" answer st));
  action' ← dict_get exec_res "action" (VStr "");
  mret (st', action').

(** [SearchWeb.post]: the context plus one f-string. *)
Definition SearchWeb_post (st : state) (exec_res : string) : result (state * pyval) :=
  let previous := shared_get st "context" (VStr "") in
  search_query ← shared_item st "search_query";
  context ← add_str previous
    (VStr ("

SEARCH: " +:+ fmt search_query +:+ "
RESULTS: " +:+ exec_res));
  mret (set_shared "context" context st, VStr "decide").

Definition agent : posts := mk_posts DecideAction_post SearchWeb_post.

End Agent.
End Pc1.

(** ** Sample collaborators

    Concrete collaborators on which the program can be run: PyYAML's
    results on a handful of payloads, scripted model replies and a fixed
    list of search results. *)

(** The double-quote character. *)
Definition dquote : string := String (ascii_of_nat 34) "".

(** The interior of a block that answers [X]: the two fields, the answer a
    double-quoted scalar. *)
Definition answer_block (X : string) : string :=
  "
action: answer
answer: " +:+ dquote +:+ X +:+ dquote +:+ "
".

Definition answer_decision (X : string) : pyval :=
  VDict [(VStr "action", VStr "answer"); (VStr "answer", VStr X)].

Definition search_decision (q : string) : pyval :=
  VDict [(VStr "action", VStr "search"); (VStr "search_query", VStr q)].

(** What [yaml.safe_load] does on the sample payloads.  The empty document
    loads to [None], a line of prose to a [str], a flat block mapping to a
    [dict]; an unclosed flow sequence or quoted scalar is a [YAMLError]
    (messages cut to their first line); a date with month 13 matches the
    timestamp pattern and makes [datetime.date] raise a [ValueError], which
    is no [YAMLError]. *)
Definition pyyaml_samples : list (string * result pyval) :=
  [ ("", Ok VNone);
    ("I do not know", Ok (VStr "I do not know"));
    ("action: answer
answer: John Doe", Ok (answer_decision "John Doe"));
    ("action: search
search_query: Nobel Physics 2024", Ok (search_decision "Nobel Physics 2024"));
    (strip (answer_block "John Doe"), Ok (answer_decision "John Doe"));
    (strip (answer_block "a```b"), Ok (answer_decision "a```b"));
    ("action: answer
answer: " +:+ dquote +:+ "a",
     Raise (YAMLError "while scanning a quoted scalar"));
    ("action: [search", Raise (YAMLError "while parsing a flow sequence"));
    ("2001-13-45", Raise (OtherError "month must be in 1..12")) ].

Fixpoint table_get {A : Type} (k : string) (t : list (string * A)) : option A :=
  match t with
  | [] => None
  | (k', a) :: rest => if String.eqb k' k then Some a else table_get k rest
  end.

Definition sample_load (text : string) : result pyval :=
  default (Raise (OtherError "payload outside the samples"))
          (table_get text pyyaml_samples).

(** A response of the chat client with the given content. *)
Definition chat_response (content : string) : pyval :=
  VDict [(VStr "message",
          VDict [(VStr "role", VStr "assistant"); (VStr "content", VStr content)])].

(** A model that gives the same reply to every call. *)
Definition always (reply : string) : nat -> string -> result pyval :=
  fun _ _ => Ok (chat_response reply).

(** A model that goes through a list of replies, and fails after them. *)
Definition scripted (replies : list string) : nat -> string -> result pyval :=
  fun n _ =>
    match replies !! n with
    | Some reply => Ok (chat_response reply)
    | None => Raise (OtherError "connection refused")
    end.

Definition sample_world (model : nat -> string -> result pyval)
    (hits : list search_hit) : Collaborators :=
  {| safe_load := sample_load;
     chat := model;
     DDGS_text := fun _ _ => Ok hits;
     format_other := fun _ => "<object>" |}.

(** A reply that holds one block deciding to answer "John Doe". *)
Definition john_doe_reply : string :=
  "```yaml
action: answer
answer: John Doe
```".

Definition nobel_question : string := "Who won the Nobel Prize in Physics 2024?".

(** The model is out of reach, the search finds nothing. *)
Definition offline : Collaborators := sample_world (scripted []) [].

(** The model answers every prompt with the "John Doe" block. *)
Definition john_doe_world : Collaborators := sample_world (always john_doe_reply) [].

(** A response with two blocks, the first one answering "John Doe". *)
Definition two_blocks : string :=
  "Here is my decision: " +:+ opener +:+ answer_block "John Doe" +:+ fence
  +:+ " and a second one: ```yaml
action: search
```".

Definition nobel_hits : list search_hit :=
  [ mk_hit "The Nobel Prize in Physics 2024"
           "https://www.nobelprize.org/prizes/physics/2024/summary/"
           "John J. Hopfield and Geoffrey Hinton";
    mk_hit "Press release" "https://www.nobelprize.org/prizes/physics/2024/press-release/"
           "for foundational discoveries and inventions" ].

(** The model first asks for a search, then answers; the search finds two
    results. *)
Definition searching_world : Collaborators :=
  sample_world
    (scripted [ "action: search
search_query: Nobel Physics 2024"; john_doe_reply; "Hopfield and Hinton" ])
    nobel_hits.

(** The store after the Decide state has chosen to search. *)
Definition search_pending : state :=
  mk_state (<[ "search_query" := VStr "Nobel Physics 2024" ]>
              {[ "question" := VStr nobel_question ]}) 1.

(** The store after one search without results. *)
Definition searched : state :=
  mk_state (<[ "context" := VStr "

SEARCH: Nobel Physics 2024
RESULTS: " ]> (shared search_pending)) 1.

(** The store when the decision is to answer, and when the answer is made. *)
Definition decided (question : string) (answer : pyval) : state :=
  mk_state (<[ "context" := answer ]> {[ "question" := VStr question ]}) 1.

Definition answered (question : string) (answer final : pyval) : state :=
  mk_state (<[ "answer" := final ]> (shared (decided question answer))) 2.

(** [after] is [before] with something appended, an absent value counting
    as the empty string, or is [before] itself. *)
Definition extends (before after : option pyval) : Prop :=
  after = before \/
  exists prev entry,
    default (VStr "") before = VStr prev /\ after = Some (VStr (prev +:+ entry)).





(** ** The entry point *)

Section Entry.
Context `{Collaborators}.

(** The loop of [main] over [sys.argv[1:]]: the first argument that starts
    with two dashes gives the question, without the dashes; the default
    question stands when there is none. *)
Fixpoint main_question (args : list string) : string :=
  match args with
  | [] => nobel_question
  | arg :: rest =>
      if startswith "--" arg then drop_chars 2 arg else main_question rest
  end.

(** [main]: run the flow on the question and print
    [shared.get("answer", "No answer found")]; the value is what is
    printed last. *)
Definition main (P : posts) (fuel : nat) (args : list string)
  : option (result pyval) :=
  match run_agent P fuel (main_question args) with
  | None => None
  | Some (Raise e) => Some (Raise e)
  | Some (Ok (st, _)) => Some (Ok (shared_get st "answer" (VStr "No answer found")))
  end.

End Entry.

(** The state a node hands to its post, the model call counted. *)
Definition called (st : state) : state := mk_state (shared st) (S (calls st)).

(** The entry that a search for [q] with results [hits] adds. *)
Definition search_entry (q : string) (hits : list search_hit) : string :=
  "

SEARCH: " +:+ q +:+ "
RESULTS: " +:+ join "

" (map format_hit hits).

(** The model asks for the same search whatever it is shown. *)
Definition stubborn_world : Collaborators :=
  sample_world (always "action: search
search_query: Nobel Physics 2024") nobel_hits.

(** The model replies with a line of YAML that does not parse. *)
Definition garbled_world : Collaborators :=
  sample_world (always "action: [search") [].

(** A search client that fails. *)
Definition no_network : Collaborators :=
  {| safe_load := sample_load;
     chat := always john_doe_reply;
     DDGS_text := fun _ _ => Raise (OtherError "connection refused");
     format_other := fun _ => "<object>" |}.

(** * Properties *)

(** ** Strings and the pattern *)

(** [s.find(p)]: where [p] first occurs in [s]. *)
Fixpoint find_str (p s : string) : option nat :=
  if startswith p s then Some 0
  else match s with
       | EmptyString => None
       | String _ s' => S <$> find_str p s'
       end.

(** No fence starts inside [b] when [b] is followed by a fence. *)
Definition fence_free (b : string) : Prop :=
  find_str fence (b +:+ fence) = Some (String.length b).

(** The opener that follows [pre] is the first one. *)
Definition opener_free (pre : string) : Prop :=
  find_str opener (pre +:+ opener) = Some (String.length pre).

Lemma append_assoc (a b c : string) : (a +:+ b) +:+ c = a +:+ b +:+ c.
Proof. induction a as [|x a IH]; cbn [String.append]; congruence. Qed.


Lemma length_append (a b : string) :
  String.length (a +:+ b) = String.length a + String.length b.
Proof.
  induction a as [|x a IH]; cbn [String.append String.length]; [reflexivity |].
  now rewrite IH.
Qed.

Lemma startswith_append (p s : string) : startswith p (p +:+ s) = true.
Proof.
  induction p as [|x p IH]; simpl; [reflexivity |].
  now rewrite Ascii.eqb_refl, IH.
Qed.

(** What decides [startswith p] lies in the first [length p] characters. *)
Lemma startswith_append_r (p a b : string) :
  String.length p <= String.length a ->
  startswith p (a +:+ b) = startswith p a.
Proof.
  revert a. induction p as [|x p IH]; intros [|y a] Hlen; simpl in *;
    try reflexivity; try lia.
  rewrite IH by lia. reflexivity.
Qed.

Lemma find_str_cons (p : string) (c : ascii) (s : string) (n : nat) :
  find_str p (String c s) = Some (S n) ->
  startswith p (String c s) = false /\ find_str p s = Some n.
Proof.
  cbn [find_str]. destruct (startswith p (String c s)); [discriminate |].
  destruct (find_str p s) as [m|]; simpl; [|discriminate].
  intros [= ->]. split; reflexivity.
Qed.

Lemma fence_free_cons (c : ascii) (b : string) :
  fence_free (String c b) ->
  fence_free b /\ forall t, startswith fence (String c b +:+ fence +:+ t) = false.
Proof.
  unfold fence_free. intros Hf. apply find_str_cons in Hf as [Hs Hf].
  split; [exact Hf |]. intros t.
  rewrite <- append_assoc, startswith_append_r; [exact Hs |].
  simpl. rewrite length_append. simpl. lia.
Qed.

Lemma lstrip_fence (t : string) : lstrip (fence +:+ t) = fence +:+ t.
Proof. reflexivity. Qed.

Lemma lstrip_append_fence (b t : string) :
  lstrip (b +:+ fence +:+ t) = lstrip b +:+ fence +:+ t.
Proof.
  induction b as [|c b IH]; [reflexivity |].
  cbn [String.append lstrip]. destruct (isspace c); [exact IH | reflexivity].
Qed.

Lemma fence_free_lstrip (b : string) : fence_free b -> fence_free (lstrip b).
Proof.
  induction b as [|c b IH]; [trivial |].
  intros Hf. cbn [lstrip]. destruct (isspace c); [|exact Hf].
  apply IH. now apply fence_free_cons in Hf.
Qed.

Lemma rstrip_empty (b : string) : rstrip b = "" <-> lstrip b = "".
Proof.
  induction b as [|c b IH]; [tauto |].
  cbn [rstrip lstrip].
  destruct (rstrip b) eqn:Hr, (isspace c); intuition congruence.
Qed.

(** With no fence inside [b], the tail of the pattern matches in front of
    [b] only when [b] is white space throughout. *)
Lemma closes_fence_free (b t : string) :
  fence_free b ->
  closes (b +:+ fence +:+ t) = true <-> lstrip b = "".
Proof.
  intros Hf. unfold closes. rewrite lstrip_append_fence.
  apply fence_free_lstrip in Hf.
  destruct (lstrip b) as [|c r] eqn:Hl.
  - split; intros _; [reflexivity | exact (startswith_append fence t)].
  - apply fence_free_cons in Hf as [_ Hs]. rewrite Hs.
    split; discriminate.
Qed.

(** The lazy group stops at the white space in front of the first fence. *)
Lemma lazy_group_fence_free (b t : string) :
  fence_free b -> lazy_group (b +:+ fence +:+ t) = Some (rstrip b).
Proof.
  induction b as [|c b IH]; intros Hf; [reflexivity |].
  pose proof (closes_fence_free (String c b) t Hf) as Hc.
  destruct (closes (String c b +:+ fence +:+ t)) eqn:Hcl.
  - assert (Hl : lstrip (String c b) = "") by now apply Hc.
    apply rstrip_empty in Hl. rewrite Hl.
    cbn [String.append lazy_group] in *. now rewrite Hcl.
  - assert (Hr : rstrip (String c b) <> "").
    { intros Hr. apply rstrip_empty in Hr. apply Hc in Hr. discriminate. }
    cbn [String.append lazy_group] in *. rewrite Hcl.
    rewrite IH by now apply fence_free_cons in Hf.
    f_equal. cbn [rstrip] in *.
    destruct (rstrip b); [|reflexivity].
    destruct (isspace c); [now elim Hr | reflexivity].
Qed.

(** The pattern, anchored in front of a block, captures the stripped body. *)
Lemma match_here_block (body t : string) :
  fence_free body ->
  match_here (opener +:+ body +:+ fence +:+ t) = Some (strip body).
Proof.
  intros Hf. unfold match_here. rewrite startswith_append.
  change (drop_chars (String.length opener) (opener +:+ body +:+ fence +:+ t))
    with (body +:+ fence +:+ t).
  rewrite lstrip_append_fence.
  apply lazy_group_fence_free, fence_free_lstrip, Hf.
Qed.

(** The pattern matches nowhere inside [pre] when the first opener is the
    one that follows it. *)
Lemma re_search_skip (pre t : string) :
  opener_free pre ->
  re_search (pre +:+ opener +:+ t) = re_search (opener +:+ t).
Proof.
  unfold opener_free. induction pre as [|c pre IH]; intros Hf; [reflexivity |].
  apply find_str_cons in Hf as [Hs Hf].
  cbn [String.append re_search]. unfold match_here at 1.
  replace (startswith opener (String c (pre +:+ opener +:+ t))) with false.
  - apply IH, Hf.
  - symmetry. rewrite <- Hs.
    change (String c (pre +:+ opener +:+ t))
      with (String c pre +:+ opener +:+ t).
    rewrite <- append_assoc. apply startswith_append_r.
    simpl. rewrite length_append. simpl. lia.
Qed.

Lemma re_search_block (pre body post : string) :
  opener_free pre -> fence_free body ->
  re_search (pre +:+ opener +:+ body +:+ fence +:+ post) = Some (strip body).
Proof.
  intros Hp Hb. rewrite re_search_skip by exact Hp.
  destruct (opener +:+ body +:+ fence +:+ post) eqn:E; [discriminate E |].
  cbn [re_search]. rewrite <- E, match_here_block by exact Hb. reflexivity.
Qed.

Lemma lstrip_idem (s : string) : lstrip (lstrip s) = lstrip s.
Proof.
  induction s as [|c s IH]; [reflexivity |].
  cbn [lstrip]. destruct (isspace c) eqn:Hc; [exact IH |].
  cbn [lstrip]. now rewrite Hc.
Qed.

Lemma rstrip_idem (s : string) : rstrip (rstrip s) = rstrip s.
Proof.
  induction s as [|c s IH]; [reflexivity |].
  cbn [rstrip]. destruct (rstrip s) as [|d r] eqn:Hr.
  - destruct (isspace c) eqn:Hc; [reflexivity |].
    cbn [rstrip]. now rewrite Hc.
  - cbn [rstrip] in *. rewrite IH. reflexivity.
Qed.

(** Stripping on the right leaves a stripped left end as it is. *)
Lemma lstrip_rstrip (s : string) : lstrip s = s -> lstrip (rstrip s) = rstrip s.
Proof.
  destruct s as [|c s]; [reflexivity |].
  cbn [lstrip rstrip]. destruct (isspace c) eqn:Hc.
  - intros Hl. exfalso.
    assert (Hlen : String.length (lstrip s) <= String.length s).
    { clear. induction s as [|d s IH]; simpl; [lia |].
      destruct (isspace d); simpl; lia. }
    rewrite Hl in Hlen. simpl in Hlen. lia.
  - intros _. destruct (rstrip s); cbn [lstrip]; now rewrite Hc.
Qed.

Lemma strip_idem (s : string) : strip (strip s) = strip s.
Proof.
  unfold strip.
  rewrite (lstrip_rstrip (lstrip s)) by apply lstrip_idem.
  apply rstrip_idem.
Qed.

(** ** The decision parser *)

Section Parser.
Context `{Collaborators}.

Lemma yaml_text_block (pre body post : string) :
  opener_free pre -> fence_free body ->
  yaml_text (pre +:+ opener +:+ body +:+ fence +:+ post) = strip body.
Proof.
  intros Hp Hb. unfold yaml_text.
  rewrite re_search_block by assumption. apply strip_idem.
Qed.

Lemma lookup_key_truth (k : string) (items : list (pyval * pyval)) (v : pyval) :
  lookup_key k items = Some v -> truth (VDict items) = true.
Proof. destruct items; [discriminate | reflexivity]. Qed.

Lemma extract_decision_block (pre body post : string) :
  opener_free pre -> fence_free body ->
  extract_decision (pre +:+ opener +:+ body +:+ fence +:+ post)
    = load_or_fallback (strip body).
Proof.
  intros Hp Hb. unfold extract_decision.
  now rewrite yaml_text_block by assumption.
Qed.

Lemma call_llm_failure (n : nat) (prompt : string) (e : pyexn) :
  chat n prompt = Raise e -> call_llm n prompt = VStr "".
Proof. intros Hchat. unfold call_llm. now rewrite Hchat. Qed.

Lemma extract_decision_empty :
  safe_load "" = Ok VNone -> extract_decision "" = Ok (VDict []).
Proof.
  intros Hload. unfold extract_decision, load_or_fallback.
  change (yaml_text "") with "". now rewrite Hload.
Qed.


(** When the loader raises nothing but a [YAMLError] on the candidate
    text, [extract_decision] returns a value; and when it does raise one,
    the value is the record that holds the candidate text under [raw] and
    the loader's description under [_error]. *)
Lemma extract_decision_yaml_errors (response : string) :
  (forall e, safe_load (yaml_text response) = Raise e ->
             exists msg, e = YAMLError msg) ->
  returns (extract_decision response) /\
  forall msg, safe_load (yaml_text response) = Raise (YAMLError msg) ->
    extract_decision response = Ok (fallback (yaml_text response) msg) /\
    subscript (fallback (yaml_text response) msg) "raw"
      = Ok (VStr (yaml_text response)) /\
    subscript (fallback (yaml_text response) msg) "_error" = Ok (VStr msg).
Proof.
  intros Hyaml. unfold extract_decision, load_or_fallback, returns.
  destruct (safe_load (yaml_text response)) as [v|e] eqn:Hload.
  - split; [eauto | discriminate].
  - destruct (Hyaml e eq_refl) as [msg ->]. split; [eauto |].
    intros msg' [= <-]. repeat split.
Qed.

(** An exception of the loader that is no [YAMLError] is not caught. *)
Lemma extract_decision_propagates (response : string) (e : pyexn) :
  safe_load (yaml_text response) = Raise e ->
  (forall msg, e <> YAMLError msg) ->
  extract_decision response = Raise e.
Proof.
  intros Hload Hne. unfold extract_decision, load_or_fallback.
  rewrite Hload. destruct e; try reflexivity. now elim (Hne msg).
Qed.

(** C6.  A failing model call makes [call_llm] return the empty string,
    and the parser turns the empty string, which PyYAML loads to [None],
    into the empty mapping; so does the Decide state's [exec] as a whole. *)
Theorem call_llm_failure_empty_mapping (n : nat) (prompt : string) (e : pyexn) :
  chat n prompt = Raise e ->
  safe_load "" = Ok VNone ->
  call_llm n prompt = VStr "" /\ extract_decision "" = Ok (VDict []).
Proof.
  intros Hchat Hload. split.
  - exact (call_llm_failure n prompt e Hchat).
  - exact (extract_decision_empty Hload).
Qed.

Lemma DecideAction_exec_failure (n : nat) (prep_res : pyval * pyval) (e : pyexn) :
  chat n (DecideAction_prompt prep_res) = Raise e ->
  safe_load "" = Ok VNone ->
  DecideAction_exec n prep_res = Ok (VDict []).
Proof.
  intros Hchat Hload. unfold DecideAction_exec.
  rewrite (call_llm_failure _ _ _ Hchat). exact (extract_decision_empty Hload).
Qed.

(** C8, as amended.  When the first fenced yaml block of the response
    holds [action: answer] and [answer: "X"], has no triple back-quote
    inside, and loads to a mapping whose [answer] is [X], the parser
    returns that mapping, its [answer] being [X] itself. *)
Theorem extract_decision_answer_roundtrip
    (pre post X : string) (items : list (pyval * pyval)) :
  opener_free pre -> fence_free (answer_block X) ->
  safe_load (strip (answer_block X)) = Ok (VDict items) ->
  lookup_key "answer" items = Some (VStr X) ->
  extract_decision (pre +:+ opener +:+ answer_block X +:+ fence +:+ post)
    = Ok (VDict items) /\
  subscript (VDict items) "answer" = Ok (VStr X).
Proof.
  intros Hp Hb Hload Hans.
  rewrite extract_decision_block by assumption.
  unfold load_or_fallback. rewrite Hload.
  rewrite (lookup_key_truth _ _ _ Hans).
  split; [reflexivity |]. unfold subscript. now rewrite Hans.
Qed.

(** C10.  When the candidate text loads to a non-empty scalar string, the
    parser returns that string, not a mapping. *)
Theorem extract_decision_scalar (response s : string) :
  safe_load (yaml_text response) = Ok (VStr s) -> s <> "" ->
  extract_decision response = Ok (VStr s).
Proof.
  intros Hload Hne. unfold extract_decision, load_or_fallback.
  rewrite Hload. cbn [truth].
  destruct (String.eqb_spec s ""); [contradiction | reflexivity].
Qed.

End Parser.

(** *** The parser on the sample collaborators *)



Lemma extract_decision_yaml_errors_witness :
  returns (extract_decision (H := offline) "  action: [search ").
Proof.
  refine (proj1 (@extract_decision_yaml_errors offline "  action: [search " _)).
  intros e. vm_compute. intros [= <-]. eexists. reflexivity.
Defined.

(** C2.  The parser is meant never to raise, and it does: on a reply that
    reads as a date with month 13 the loader raises a [ValueError], which
    is no [YAMLError], and [extract_decision] lets it through. *)
Theorem extract_decision_raises_on_bad_date :
  extract_decision (H := offline) "2001-13-45"
    = Raise (OtherError "month must be in 1..12") /\
  ~ returns (extract_decision (H := offline) "2001-13-45").
Proof.
  split; [reflexivity |]. intros [v Hv]. vm_compute in Hv. discriminate Hv.
Qed.

Lemma call_llm_failure_empty_mapping_witness :
  call_llm (H := offline) 0 "In a few words, what is the meaning of life?" = VStr ""
  /\ extract_decision (H := offline) "" = Ok (VDict []).
Proof.
  apply (@call_llm_failure_empty_mapping offline 0 _
           (OtherError "connection refused")); reflexivity.
Defined.

Lemma extract_decision_answer_roundtrip_witness :
  extract_decision (H := offline) two_blocks = Ok (answer_decision "John Doe") /\
  subscript (answer_decision "John Doe") "answer" = Ok (VStr "John Doe").
Proof.
  apply (@extract_decision_answer_roundtrip offline "Here is my decision: ");
    vm_compute; reflexivity.
Defined.

(** C8 as stated fails: with a triple back-quote inside [X] the pattern
    closes the block in the middle of the answer, the loader is given the
    cut text, and the record that comes back has no [answer]. *)
Lemma extract_decision_answer_cut_at_fence :
  safe_load (Collaborators := offline) (strip (answer_block "a```b"))
    = Ok (answer_decision "a```b") /\
  exists raw msg,
    extract_decision (H := offline) (opener +:+ answer_block "a```b" +:+ fence)
      = Ok (fallback raw msg) /\
    subscript (fallback raw msg) "answer" = Raise (KeyError "answer").
Proof.
  split; [reflexivity |]. eexists _, _. split; vm_compute; reflexivity.
Qed.

Lemma extract_decision_scalar_witness :
  extract_decision (H := offline) "I do not know" = Ok (VStr "I do not know").
Proof.
  apply (@extract_decision_scalar offline); [reflexivity | discriminate].
Defined.

(** ** The Decide state *)

(** [pc1.py]'s post returns on every mapping. *)
Lemma Pc1_DecideAction_post_total (st : state) (items : list (pyval * pyval)) :
  returns (Pc1.DecideAction_post st (VDict items)).
Proof.
  unfold Pc1.DecideAction_post, returns, dict_get, mbind, result_bind, mret, result_ret.
  destruct (lookup_key "action" items) as [a|];
    [destruct (eq_str a "search") |];
    cbn [eq_str];
    try destruct (lookup_key "search_query" items);
    try destruct (lookup_key "answer" items); eauto.
Qed.

(** [pc.py]'s post raises on every mapping without an [action]. *)
Lemma Pc_DecideAction_post_no_action (st : state) (items : list (pyval * pyval)) :
  lookup_key "action" items = None ->
  Pc.DecideAction_post st (VDict items) = Raise (KeyError "action").
Proof.
  intros Hno. unfold Pc.DecideAction_post, subscript. now rewrite Hno.
Qed.

(** C1.  On the parser's fallback record the post of [pc.py] raises a
    [KeyError] for [action], where the post of [pc1.py] returns: it stores
    the empty string as context and hands the empty action to the flow,
    which finds no successor for it and ends. *)
Theorem DecideAction_post_on_fallback (st : state) (raw msg : string) :
  Pc.DecideAction_post st (fallback raw msg) = Raise (KeyError "action") /\
  Pc1.DecideAction_post st (fallback raw msg)
    = Ok (set_shared "context" (VStr "") st, VStr "") /\
  get_next_node Decide (VStr "") = Ok None.
Proof. repeat split. Qed.

(** On a decision that is a scalar and no mapping, both posts raise. *)
Lemma DecideAction_post_on_scalar (st : state) (s : string) :
  Pc.DecideAction_post st (VStr s) = Raise TypeError /\
  Pc1.DecideAction_post st (VStr s) = Raise AttributeError.
Proof. split; reflexivity. Qed.

(** C9, as amended.  The prompt of the Decide state carries the sentinel
    when [shared] has no [context], and the stored context, whatever it
    is, when it has one. *)
Theorem DecideAction_prompt_context `{Collaborators}
    (st : state) (question : pyval) :
  shared st !! "question" = Some question ->
  (shared st !! "context" = None ->
     exists prep_res, DecideAction_prep st = Ok prep_res /\
       DecideAction_prompt prep_res
         = decide_prompt question (VStr no_previous_search)) /\
  (forall context, shared st !! "context" = Some context ->
     exists prep_res, DecideAction_prep st = Ok prep_res /\
       DecideAction_prompt prep_res = decide_prompt question context).
Proof.
  intros Hq. unfold DecideAction_prep, shared_item, shared_get. rewrite Hq.
  split; [intros Hc | intros context Hc]; rewrite Hc;
    eexists; split; reflexivity.
Qed.

Lemma DecideAction_prompt_context_witness :
  exists prep_res,
    DecideAction_prep (mk_state {[ "question" := VStr nobel_question ]} 0)
      = Ok prep_res /\
    DecideAction_prompt (H := offline) prep_res
      = decide_prompt (H := offline) (VStr nobel_question) (VStr no_previous_search).
Proof.
  refine (proj1 (@DecideAction_prompt_context offline
                   (mk_state {[ "question" := VStr nobel_question ]} 0)
                   (VStr nobel_question) _) _);
    vm_compute; reflexivity.
Defined.

(** C9 as stated fails: with an empty context in [shared] the prompt
    carries the empty string, not the sentinel. *)
Lemma DecideAction_prompt_empty_context :
  let st := mk_state (<[ "context" := VStr "" ]> {[ "question" := VStr nobel_question ]}) 0 in
  shared st !! "context" = Some (VStr "") /\
  exists prep_res,
    DecideAction_prep st = Ok prep_res /\
    DecideAction_prompt (H := offline) prep_res
      = decide_prompt (H := offline) (VStr nobel_question) (VStr "") /\
    DecideAction_prompt (H := offline) prep_res
      <> decide_prompt (H := offline) (VStr nobel_question) (VStr no_previous_search).
Proof.
  split; [vm_compute; reflexivity |].
  eexists. split; [vm_compute; reflexivity |].
  split; [reflexivity |].
  intros E. apply String.eqb_eq in E. vm_compute in E. discriminate E.
Qed.

(** ** The Search state *)

Section Search.
Context `{Collaborators}.

(** The entry that one search adds to the context. *)
Lemma SearchWeb_run (P : posts) (st : state) (q prev : string) (hits : list search_hit) :
  P = Pc.agent \/ P = Pc1.agent ->
  shared st !! "search_query" = Some (VStr q) ->
  shared_get st "context" (VStr "") = VStr prev ->
  DDGS_text (VStr q) 5 = Ok hits ->
  run_node P Search st
    = Ok (set_shared "context"
            (VStr (prev +:+ "

SEARCH: " +:+ q +:+ "
RESULTS: " +:+ join "

" (map format_hit hits))) st,
          VStr "decide").
Proof.
  intros HP Hq Hc Hhits.
  unfold run_node, SearchWeb_prep, SearchWeb_exec, search_web_duckduckgo,
    shared_item.
  rewrite Hq. cbn [mbind result_bind]. rewrite Hhits. cbn [mbind result_bind mret result_ret].
  destruct HP as [-> | ->]; cbn [search_post Pc.agent Pc1.agent].
  - unfold Pc.SearchWeb_post, shared_item. rewrite Hc, Hq.
    cbn [add_str mbind result_bind mret result_ret].
    now rewrite !append_assoc.
  - unfold Pc1.SearchWeb_post, shared_item. rewrite Hc, Hq.
    cbn [add_str mbind result_bind mret result_ret fmt]. reflexivity.
Qed.



End Search.



(** ** The context across the states *)

Lemma extends_refl (c : option pyval) : extends c c.
Proof. left. reflexivity. Qed.



Lemma add_str_inv (a b c : pyval) :
  add_str a b = Ok c -> exists x y, a = VStr x /\ b = VStr y /\ c = VStr (x +:+ y).
Proof.
  destruct a, b; try discriminate. intros [= <-]. eauto.
Qed.






(** ** The flow *)

Section Flow.
Context `{Collaborators}.

(** A run that ends keeps its outcome when given more fuel. *)
Lemma orch_more_fuel (P : posts) (fuel k : nat) (curr : node) (st : state)
    (r : result (state * list node)) :
  orch P fuel curr st = Some r -> orch P (fuel + k) curr st = Some r.
Proof.
  revert curr st r. induction fuel as [|fuel IH]; intros curr st r; [discriminate |].
  cbn [orch Nat.add].
  destruct (run_node P curr st) as [[st' action]|]; [|trivial].
  destruct (get_next_node curr action) as [[nxt|]|]; try trivial.
  destruct (orch P fuel nxt st') as [r'|] eqn:Hrec; [|discriminate].
  rewrite (IH _ _ _ Hrec). trivial.
Qed.

Lemma Decide_answer_step (P : posts) (question reply : string)
    (items : list (pyval * pyval)) (answer : pyval) :
  P = Pc.agent \/ P = Pc1.agent ->
  call_llm 0 (decide_prompt (VStr question) (VStr no_previous_search)) = VStr reply ->
  extract_decision reply = Ok (VDict items) ->
  lookup_key "action" items = Some (VStr "answer") ->
  lookup_key "answer" items = Some answer ->
  run_node P Decide (mk_state {[ "question" := VStr question ]} 0)
    = Ok (decided question answer, VStr "answer").
Proof.
  intros HP Hcall Hparse Haction Hanswer.
  unfold run_node, DecideAction_prep, DecideAction_exec, DecideAction_prompt,
    shared_item, shared_get.
  cbn [shared calls]. rewrite lookup_singleton_eq, lookup_singleton_ne by discriminate.
  cbn [mbind result_bind mret result_ret default from_option id].
  rewrite Hcall, Hparse. cbn [mbind result_bind].
  destruct HP as [-> | ->]; cbn [decide_post Pc.agent Pc1.agent].
  - unfold Pc.DecideAction_post, subscript. rewrite Haction.
    cbn [mbind result_bind mret result_ret eq_str String.eqb Ascii.eqb Bool.eqb].
    rewrite Hanswer. reflexivity.
  - unfold Pc1.DecideAction_post, dict_get. rewrite Haction.
    cbn [mbind result_bind mret result_ret eq_str String.eqb Ascii.eqb Bool.eqb].
    rewrite Hanswer. reflexivity.
Qed.

Lemma Answer_step (P : posts) (question : string) (answer : pyval) :
  run_node P Answer (decided question answer)
    = Ok (answered question answer
            (call_llm 1 (answer_prompt (VStr question) answer)),
          VStr "done").
Proof.
  unfold run_node, AnswerQuestion_prep, AnswerQuestion_exec, AnswerQuestion_post,
    shared_item, shared_get, decided.
  cbn [shared calls].
  rewrite lookup_insert_eq.
  rewrite (lookup_insert_ne _ "context" "question") by discriminate.
  rewrite lookup_singleton_eq. reflexivity.
Qed.

(** C7, as amended.  When the model's first reply parses to a decision
    with action [answer], the flow runs the Decide state once and the
    Answer state once and ends; [context] then holds the answer of the
    decision, and [answer] holds what the model replied to the prompt of
    the Answer state. *)
Theorem answer_run (P : posts) (question reply : string)
    (items : list (pyval * pyval)) (answer : pyval) (fuel : nat) :
  P = Pc.agent \/ P = Pc1.agent ->
  call_llm 0 (decide_prompt (VStr question) (VStr no_previous_search)) = VStr reply ->
  extract_decision reply = Ok (VDict items) ->
  lookup_key "action" items = Some (VStr "answer") ->
  lookup_key "answer" items = Some answer ->
  2 <= fuel ->
  run_agent P fuel question
    = Some (Ok (answered question answer
                  (call_llm 1 (answer_prompt (VStr question) answer)),
                [Decide; Answer])).
Proof.
  intros HP Hcall Hparse Haction Hanswer Hfuel.
  replace fuel with (2 + (fuel - 2)) by lia.
  unfold run_agent. apply orch_more_fuel. cbn [orch].
  rewrite (Decide_answer_step P question reply items answer) by assumption.
  cbn [get_next_node truth successors String.eqb Ascii.eqb Bool.eqb negb].
  rewrite Answer_step. reflexivity.
Qed.

End Flow.

Lemma answer_run_witness :
  run_agent (H := john_doe_world) Pc.agent 2 nobel_question
    = Some (Ok (answered nobel_question (VStr "John Doe")
                  (call_llm (H := john_doe_world) 1
                     (answer_prompt (H := john_doe_world)
                        (VStr nobel_question) (VStr "John Doe"))),
                [Decide; Answer])).
Proof.
  apply (@answer_run john_doe_world Pc.agent nobel_question john_doe_reply
           [(VStr "action", VStr "answer"); (VStr "answer", VStr "John Doe")]);
    [left; reflexivity | vm_compute; reflexivity .. | lia].
Defined.

(** C7 as stated fails: with a model that gives the "John Doe" block to
    every prompt, the flow does end after one Decide and one Answer step,
    but the final [answer] is the model's reply to the Answer state's
    prompt, the whole block, and not "John Doe". *)
Lemma john_doe_final_answer :
  exists st,
    run_agent (H := john_doe_world) Pc.agent 2 nobel_question
      = Some (Ok (st, [Decide; Answer])) /\
    run_agent (H := john_doe_world) (Pc1.agent (H := john_doe_world)) 2
        nobel_question
      = Some (Ok (st, [Decide; Answer])) /\
    shared st !! "context" = Some (VStr "John Doe") /\
    shared st !! "answer" = Some (VStr john_doe_reply) /\
    shared st !! "answer" <> Some (VStr "John Doe").
Proof.
  eexists. split; [vm_compute; reflexivity |].
  split; [vm_compute; reflexivity |].
  split; [vm_compute; reflexivity |].
  split; [vm_compute; reflexivity |].
  vm_compute. discriminate.
Qed.

(** * Further properties *)

(** ** The model client and the parser *)

Section MoreParser.
Context `{Collaborators}.

(** [call_llm] gives back either the empty string or the [content] found
    under [message] in a response that has both. *)
Theorem call_llm_content_or_empty (n : nat) (prompt : string) :
  call_llm n prompt = VStr "" \/
  exists response message,
    chat n prompt = Ok (VDict response) /\
    lookup_key "message" response = Some (VDict message) /\
    lookup_key "content" message = Some (call_llm n prompt).
Proof.
  unfold call_llm.
  destruct (chat n prompt) as [[| | | | |response|]|]; cbn; auto.
  destruct (lookup_key "message" response) as [[| | | | |message|]|] eqn:Hm;
    cbn; auto.
  destruct (lookup_key "content" message) as [content|] eqn:Hc; cbn; auto.
  right. eauto.
Qed.

Lemma re_search_no_opener (s : string) :
  find_str opener s = None -> re_search s = None.
Proof.
  induction s as [|c s IH]; cbn [find_str re_search]; unfold match_here.
  - destruct (startswith opener ""); [discriminate | reflexivity].
  - destruct (startswith opener (String c s)); [discriminate |].
    destruct (find_str opener s); [discriminate |]. intros _. now apply IH.
Qed.

(** Without an opening fence in the response, the whole response, stripped,
    is what the loader is given. *)
Theorem extract_decision_no_block (response : string) :
  find_str opener response = None ->
  yaml_text response = strip response /\
  extract_decision response = load_or_fallback (strip response).
Proof.
  intros Hno. unfold extract_decision, yaml_text.
  rewrite (re_search_no_opener _ Hno). split; reflexivity.
Qed.

Lemma startswith_prefix (p q s : string) :
  startswith (p +:+ q) s = true -> startswith p s = true.
Proof.
  revert s. induction p as [|x p IH]; intros s; [reflexivity |].
  destruct s as [|y s]; cbn [String.append startswith]; [discriminate |].
  destruct (Ascii.eqb x y); cbn [andb]; [apply IH | discriminate].
Qed.

Lemma startswith_fence_opener (s : string) :
  startswith opener s = true -> startswith fence s = true.
Proof. exact (startswith_prefix fence "yaml" s). Qed.

Lemma find_str_fence_opener (s : string) :
  find_str fence s = None -> find_str opener s = None.
Proof.
  induction s as [|c s IH]; cbn [find_str].
  - intros _. reflexivity.
  - destruct (startswith fence (String c s)) eqn:Hf; [discriminate |].
    destruct (startswith opener (String c s)) eqn:Ho.
    + apply startswith_fence_opener in Ho. congruence.
    + destruct (find_str fence s); [discriminate |].
      intros _. now rewrite IH.
Qed.

Lemma find_str_fence_lstrip (s : string) :
  find_str fence s = None -> find_str fence (lstrip s) = None.
Proof.
  induction s as [|c s IH]; [trivial |].
  intros Hno. cbn [lstrip]. destruct (isspace c); [|exact Hno].
  apply IH. cbn [find_str] in Hno.
  destruct (startswith fence (String c s)); [discriminate |].
  destruct (find_str fence s); [discriminate | reflexivity].
Qed.

Lemma lazy_group_no_fence (s : string) :
  find_str fence s = None -> lazy_group s = None.
Proof.
  induction s as [|c s IH]; intros Hno.
  - reflexivity.
  - pose proof (find_str_fence_lstrip _ Hno) as Hl.
    cbn [lazy_group]. unfold closes.
    destruct (lstrip (String c s)) as [|d t] eqn:E.
    + cbn [startswith fence]. cbn [find_str] in Hno.
      destruct (startswith fence (String c s)); [discriminate |].
      destruct (find_str fence s); [discriminate |]. now rewrite IH.
    + cbn [find_str] in Hl.
      destruct (startswith fence (String d t)); [discriminate |].
      cbn [find_str] in Hno.
      destruct (startswith fence (String c s)); [discriminate |].
      destruct (find_str fence s); [discriminate |]. now rewrite IH.
Qed.

(** An opening fence that is never closed is no block: the response is
    loaded as a whole, fence included. *)
Theorem extract_decision_unclosed_block (pre body : string) :
  opener_free pre -> find_str fence body = None ->
  yaml_text (pre +:+ opener +:+ body) = strip (pre +:+ opener +:+ body).
Proof.
  intros Hp Hno. unfold yaml_text.
  rewrite re_search_skip by exact Hp.
  assert (Hbody : re_search body = None)
    by now apply re_search_no_opener, find_str_fence_opener.
  assert (Hhere : match_here (opener +:+ body) = None).
  { unfold match_here. rewrite startswith_append.
    change (drop_chars (String.length opener) (opener +:+ body)) with body.
    now apply lazy_group_no_fence, find_str_fence_lstrip. }
  replace (re_search (opener +:+ body)) with (re_search body); [now rewrite Hbody |].
  change (opener +:+ body)
    with (String "`" (String "`" (String "`" (String "y" (String "a"
            (String "m" (String "l" body))))))) in *.
  cbn [re_search]. rewrite Hhere. reflexivity.
Qed.

(** The text handed to the loader never starts or ends with white space. *)
Theorem yaml_text_stripped (response : string) :
  strip (yaml_text response) = yaml_text response.
Proof.
  unfold yaml_text. destruct (re_search response); apply strip_idem.
Qed.

(** What the parser returns is never [None], nor any other false value
    but the empty mapping. *)
Theorem extract_decision_truthy (response : string) (v : pyval) :
  extract_decision response = Ok v -> v = VDict [] \/ truth v = true.
Proof.
  unfold extract_decision, load_or_fallback.
  destruct (safe_load (yaml_text response)) as [w|[]]; try discriminate.
  - destruct (truth w) eqn:Hw; intros [= <-]; auto.
  - intros [= <-]. right. reflexivity.
Qed.

End MoreParser.

Lemma extract_decision_no_block_witness :
  yaml_text " I do not know ``` " = strip " I do not know ``` " /\
  extract_decision (H := offline) " I do not know ``` "
    = load_or_fallback (H := offline) (strip " I do not know ``` ").
Proof.
  apply (@extract_decision_no_block offline). vm_compute. reflexivity.
Defined.

Lemma extract_decision_unclosed_block_witness :
  yaml_text ("Here: " +:+ opener +:+ "
action: answer")
    = strip ("Here: " +:+ opener +:+ "
action: answer").
Proof.
  apply extract_decision_unclosed_block; vm_compute; reflexivity.
Defined.

Lemma extract_decision_truthy_witness :
  VDict [] = VDict [] \/ truth (VDict []) = true.
Proof.
  apply (@extract_decision_truthy offline ""). vm_compute. reflexivity.
Defined.

(** ** Missing keys and failing collaborators *)

Section Edges.
Context `{Collaborators}.

(** Without a question in [shared], the Decide state and the Answer state
    raise a [KeyError] for it, under both posts, and so does the flow. *)
Theorem question_required (P : posts) (curr : node) (st : state) (fuel : nat) :
  shared st !! "question" = None -> curr <> Search ->
  run_node P curr st = Raise (KeyError "question") /\
  orch P (S fuel) curr st = Some (Raise (KeyError "question")).
Proof.
  intros Hno Hcurr.
  assert (Hrun : run_node P curr st = Raise (KeyError "question")).
  { destruct curr; [| contradiction |];
      unfold run_node, DecideAction_prep, AnswerQuestion_prep, shared_item;
      now rewrite Hno. }
  split; [exact Hrun |]. cbn [orch]. now rewrite Hrun.
Qed.

(** The Search state raises a [KeyError] when no query was stored, and
    lets an exception of the search client through; [context] is not
    touched then, the run ends with the exception. *)
Theorem SearchWeb_failures (P : posts) (st : state) (fuel : nat) :
  (shared st !! "search_query" = None ->
     orch P (S fuel) Search st = Some (Raise (KeyError "search_query"))) /\
  (forall q e, shared st !! "search_query" = Some q ->
     DDGS_text q 5 = Raise e ->
     orch P (S fuel) Search st = Some (Raise e)).
Proof.
  split.
  - intros Hno. cbn [orch]. unfold run_node, SearchWeb_prep, shared_item.
    now rewrite Hno.
  - intros q e Hq He. cbn [orch].
    unfold run_node, SearchWeb_prep, SearchWeb_exec, search_web_duckduckgo,
      shared_item.
    rewrite Hq. cbn [mbind result_bind]. now rewrite He.
Qed.

End Edges.

(** A decision to search that names no query, or a decision to answer that
    holds no answer: [pc.py] raises a [KeyError] for the missing key,
    [pc1.py] goes on with the empty string in its place. *)
Theorem DecideAction_post_missing_parameter
    (st : state) (items : list (pyval * pyval)) (action : string) :
  lookup_key "action" items = Some (VStr action) ->
  (action = "search" -> lookup_key "search_query" items = None ->
     Pc.DecideAction_post st (VDict items) = Raise (KeyError "search_query") /\
     Pc1.DecideAction_post st (VDict items)
       = Ok (set_shared "search_query" (VStr "") st, VStr "search")) /\
  (action <> "search" -> lookup_key "answer" items = None ->
     Pc.DecideAction_post st (VDict items) = Raise (KeyError "answer") /\
     Pc1.DecideAction_post st (VDict items)
       = Ok (set_shared "context" (VStr "") st, VStr action)).
Proof.
  intros Ha. split.
  - intros -> Hq.
    unfold Pc.DecideAction_post, Pc1.DecideAction_post, subscript, dict_get.
    rewrite Ha, Hq. split; reflexivity.
  - intros Hne Hans.
    unfold Pc.DecideAction_post, Pc1.DecideAction_post, subscript, dict_get.
    rewrite Ha. cbn [mbind result_bind mret result_ret eq_str].
    destruct (String.eqb_spec action "search") as [->|_]; [contradiction |].
    rewrite Hans. split; reflexivity.
Qed.

Lemma DecideAction_post_missing_parameter_witness :
  Pc.DecideAction_post search_pending
      (VDict [(VStr "action", VStr "search")])
    = Raise (KeyError "search_query") /\
  Pc1.DecideAction_post search_pending
      (VDict [(VStr "action", VStr "search")])
    = Ok (set_shared "search_query" (VStr "") search_pending, VStr "search").
Proof.
  refine (proj1 (DecideAction_post_missing_parameter search_pending
                   [(VStr "action", VStr "search")] "search" _) _ _);
    reflexivity.
Defined.

Lemma question_required_witness :
  run_node (H := offline) Pc.agent Decide (mk_state ∅ 0)
    = Raise (KeyError "question") /\
  orch (H := offline) Pc.agent 1 Decide (mk_state ∅ 0)
    = Some (Raise (KeyError "question")).
Proof.
  apply (@question_required offline); [reflexivity | discriminate].
Defined.

Lemma SearchWeb_failures_witness :
  orch (H := no_network) Pc.agent 1 Search search_pending
    = Some (Raise (OtherError "connection refused")).
Proof.
  refine (proj2 (@SearchWeb_failures no_network Pc.agent search_pending 0)
            (VStr "Nobel Physics 2024") _ _ _);
    vm_compute; reflexivity.
Defined.

(** ** The two files side by side *)

Lemma Pc_post_refined (st : state) (exec_res : pyval) (r : state * pyval) :
  Pc.DecideAction_post st exec_res = Ok r ->
  Pc1.DecideAction_post st exec_res = Ok r.
Proof.
  unfold Pc.DecideAction_post, Pc1.DecideAction_post, subscript, dict_get.
  destruct exec_res as [| | | | |items|]; try discriminate.
  destruct (lookup_key "action" items) as [a|]; [|discriminate].
  cbn [mbind result_bind mret result_ret].
  destruct (eq_str a "search").
  - destruct (lookup_key "search_query" items); [trivial | discriminate].
  - destruct (lookup_key "answer" items); [trivial | discriminate].
Qed.

Lemma Pc_search_refined `{Collaborators}
    (st : state) (exec_res : string) (r : state * pyval) :
  Pc.SearchWeb_post st exec_res = Ok r ->
  Pc1.SearchWeb_post st exec_res = Ok r.
Proof.
  unfold Pc.SearchWeb_post, Pc1.SearchWeb_post, shared_item.
  destruct (add_str _ _) as [a|] eqn:Ha; [|discriminate].
  apply add_str_inv in Ha as (prev & ? & -> & [= <-] & ->).
  destruct (shared st !! "search_query") as [q|]; [|discriminate].
  cbn [mbind result_bind mret result_ret].
  destruct (add_str _ q) as [b|] eqn:Hb; [|discriminate].
  apply add_str_inv in Hb as (? & y & [= <-] & -> & ->).
  cbn [mbind result_bind mret result_ret add_str fmt].
  intros <-. now rewrite !append_assoc.
Qed.

Lemma run_node_refined `{Collaborators}
    (curr : node) (st : state) (r : state * pyval) :
  run_node Pc.agent curr st = Ok r -> run_node Pc1.agent curr st = Ok r.
Proof.
  destruct curr; cbn [run_node]; [| | trivial].
  - destruct (DecideAction_prep st) as [p|]; [|discriminate].
    cbn [mbind result_bind].
    destruct (DecideAction_exec (calls st) p) as [e|]; [|discriminate].
    cbn [mbind result_bind]. apply Pc_post_refined.
  - destruct (SearchWeb_prep st) as [p|]; [|discriminate].
    cbn [mbind result_bind].
    destruct (SearchWeb_exec p) as [e|]; [|discriminate].
    cbn [mbind result_bind]. apply Pc_search_refined.
Qed.

(** Whenever a run of [pc.py] ends without an exception, the run of
    [pc1.py] in the same surroundings ends in the same state after the
    same states of the loop. *)
Theorem pc1_refines_pc `{Collaborators}
    (fuel : nat) (curr : node) (st : state) (r : state * list node) :
  orch Pc.agent fuel curr st = Some (Ok r) ->
  orch Pc1.agent fuel curr st = Some (Ok r).
Proof.
  revert curr st r. induction fuel as [|fuel IH]; intros curr st r; [discriminate |].
  cbn [orch].
  destruct (run_node Pc.agent curr st) as [[st' action]|] eqn:Hrun; [|discriminate].
  rewrite (run_node_refined _ _ _ Hrun).
  destruct (get_next_node curr action) as [[nxt|]|]; try trivial.
  destruct (orch Pc.agent fuel nxt st') as [[[st'' ran]|]|] eqn:Hrec;
    try discriminate.
  rewrite (IH _ _ _ Hrec). trivial.
Qed.

Lemma pc1_refines_pc_witness :
  exists r,
    orch (H := searching_world) (Pc1.agent (H := searching_world)) 4 Decide
         (mk_state {[ "question" := VStr nobel_question ]} 0) = Some (Ok r) /\
    snd r = [Decide; Search; Decide; Answer].
Proof.
  eexists. split.
  - apply (@pc1_refines_pc searching_world). vm_compute. reflexivity.
  - reflexivity.
Defined.

(** ** What a step leaves alone *)

Lemma Pc1_post_keeps (st st' : state) (exec_res action : pyval) (k : string) :
  Pc1.DecideAction_post st exec_res = Ok (st', action) ->
  k <> "search_query" -> k <> "context" ->
  shared st' !! k = shared st !! k.
Proof.
  unfold Pc1.DecideAction_post, dict_get.
  destruct exec_res as [| | | | |items|]; try discriminate.
  intros Hpost H1 H2. revert Hpost.
  destruct (lookup_key "action" items) as [a|];
    cbn [mbind result_bind mret result_ret];
    destruct (eq_str _ "search");
    try destruct (lookup_key "search_query" items);
    try destruct (lookup_key "answer" items);
    cbn [mbind result_bind mret result_ret]; intros [= <- _];
    cbn [shared set_shared]; now rewrite lookup_insert_ne.
Qed.

Lemma Pc1_search_keeps `{Collaborators}
    (st st' : state) (exec_res : string) (action : pyval) (k : string) :
  Pc1.SearchWeb_post st exec_res = Ok (st', action) ->
  k <> "context" ->
  shared st' !! k = shared st !! k.
Proof.
  unfold Pc1.SearchWeb_post, shared_item.
  destruct (shared st !! "search_query") as [q|]; [|discriminate].
  cbn [mbind result_bind mret result_ret].
  destruct (add_str _ _) as [c|]; [|discriminate].
  cbn [mbind result_bind mret result_ret]. intros [= <- _] Hk.
  cbn [shared set_shared]. now rewrite lookup_insert_ne.
Qed.

(** No step of the loop changes the question, and no step but the Answer
    state sets or changes the answer. *)
Theorem question_and_answer_kept `{Collaborators}
    (P : posts) (curr : node) (st st' : state) (action : pyval) :
  P = Pc.agent \/ P = Pc1.agent ->
  run_node P curr st = Ok (st', action) ->
  shared st' !! "question" = shared st !! "question" /\
  (curr <> Answer -> shared st' !! "answer" = shared st !! "answer").
Proof.
  intros HP Hrun.
  assert (Hrun1 : run_node Pc1.agent curr st = Ok (st', action)).
  { destruct HP as [-> | ->]; [now apply run_node_refined | exact Hrun]. }
  clear Hrun HP. destruct curr; cbn [run_node] in Hrun1.
  - destruct (DecideAction_prep st) as [p|]; [|discriminate].
    cbn [mbind result_bind] in Hrun1.
    destruct (DecideAction_exec (calls st) p) as [e|]; [|discriminate].
    cbn [mbind result_bind decide_post Pc1.agent] in Hrun1.
    split; [|intros _];
      now rewrite (Pc1_post_keeps _ _ _ _ _ Hrun1).
  - destruct (SearchWeb_prep st) as [p|]; [|discriminate].
    cbn [mbind result_bind] in Hrun1.
    destruct (SearchWeb_exec p) as [e|]; [|discriminate].
    cbn [mbind result_bind search_post Pc1.agent] in Hrun1.
    split; [|intros _];
      now rewrite (Pc1_search_keeps _ _ _ _ _ Hrun1).
  - destruct (AnswerQuestion_prep st) as [p|]; [|discriminate].
    cbn [mbind result_bind mret result_ret AnswerQuestion_post] in Hrun1.
    injection Hrun1 as <- _. split; [|contradiction].
    cbn [shared set_shared]. now rewrite lookup_insert_ne.
Qed.

Lemma question_and_answer_kept_witness :
  exists st',
    shared st' !! "question" = shared searched !! "question" /\
    (Decide <> Answer -> shared st' !! "answer" = shared searched !! "answer").
Proof.
  eexists.
  apply (@question_and_answer_kept john_doe_world Pc.agent Decide searched _
           (VStr "answer")); [left; reflexivity | vm_compute; reflexivity].
Defined.

(** ** Where the flow goes *)

(** The flow goes on after a state only along the three edges of
    [create_agent_flow]: from Decide on [search] and on [answer], from
    Search on [decide]; after the Answer state it always ends. *)
Theorem get_next_node_edges (curr nxt : node) (action : pyval) :
  get_next_node curr action = Ok (Some nxt) <->
  (curr = Decide /\ action = VStr "search" /\ nxt = Search) \/
  (curr = Decide /\ action = VStr "answer" /\ nxt = Answer) \/
  (curr = Search /\ action = VStr "decide" /\ nxt = Decide).
Proof.
  split.
  - unfold get_next_node. destruct (truth action) eqn:Ht.
    + destruct action as [| | |s| | |]; cbn [hashable];
        try (destruct (hashable _); discriminate);
        try discriminate.
      * destruct curr; cbn [successors].
        -- destruct (String.eqb_spec s "search") as [->|_];
             [intros [= <-]; auto |].
           destruct (String.eqb_spec s "answer") as [->|_];
             [intros [= <-]; auto | discriminate].
        -- destruct (String.eqb_spec s "decide") as [->|_];
             [intros [= <-]; auto 6 | discriminate].
        -- discriminate.
      * destruct hashable0; discriminate.
    + destruct curr; discriminate.
  - intros [(-> & -> & ->) | [(-> & -> & ->) | (-> & -> & ->)]]; reflexivity.
Qed.

Section Runs.
Context `{Collaborators}.

(** One Decide step, given what its [exec] returns. *)
Lemma Decide_search_step (P : posts) (st : state) (question : pyval)
    (items : list (pyval * pyval)) (query : pyval) :
  P = Pc.agent \/ P = Pc1.agent ->
  shared st !! "question" = Some question ->
  DecideAction_exec (calls st)
    (question, shared_get st "context" (VStr no_previous_search))
    = Ok (VDict items) ->
  lookup_key "action" items = Some (VStr "search") ->
  lookup_key "search_query" items = Some query ->
  run_node P Decide st
    = Ok (set_shared "search_query" query (called st), VStr "search").
Proof.
  intros HP Hq Hexec Ha Hs.
  unfold run_node, DecideAction_prep, shared_item. rewrite Hq.
  cbn [mbind result_bind mret result_ret]. rewrite Hexec.
  cbn [mbind result_bind].
  destruct HP as [-> | ->]; cbn [decide_post Pc.agent Pc1.agent];
    unfold Pc.DecideAction_post, Pc1.DecideAction_post, subscript, dict_get;
    rewrite Ha; cbn [mbind result_bind mret result_ret eq_str];
    change (String.eqb "search" "search") with true; cbv iota;
    rewrite Hs; reflexivity.
Qed.

Lemma Decide_other_step (P : posts) (st : state) (question : pyval)
    (items : list (pyval * pyval)) (action : string) (answer : pyval) :
  P = Pc.agent \/ P = Pc1.agent ->
  shared st !! "question" = Some question ->
  DecideAction_exec (calls st)
    (question, shared_get st "context" (VStr no_previous_search))
    = Ok (VDict items) ->
  lookup_key "action" items = Some (VStr action) ->
  action <> "search" ->
  lookup_key "answer" items = Some answer ->
  run_node P Decide st
    = Ok (set_shared "context" answer (called st), VStr action).
Proof.
  intros HP Hq Hexec Ha Hne Hans.
  unfold run_node, DecideAction_prep, shared_item. rewrite Hq.
  cbn [mbind result_bind mret result_ret]. rewrite Hexec.
  cbn [mbind result_bind].
  destruct HP as [-> | ->]; cbn [decide_post Pc.agent Pc1.agent];
    unfold Pc.DecideAction_post, Pc1.DecideAction_post, subscript, dict_get;
    rewrite Ha; cbn [mbind result_bind mret result_ret eq_str];
    destruct (String.eqb_spec action "search"); try contradiction;
    rewrite Hans; reflexivity.
Qed.

Lemma Answer_run (P : posts) (st : state) (question : pyval) :
  shared st !! "question" = Some question ->
  run_node P Answer st
    = Ok (set_shared "answer"
            (call_llm (calls st)
               (answer_prompt question (shared_get st "context" (VStr ""))))
            (called st),
          VStr "done").
Proof.
  intros Hq. unfold run_node, AnswerQuestion_prep, shared_item. now rewrite Hq.
Qed.

End Runs.

(** ** Whole runs *)

Section WholeRuns.
Context `{Collaborators}.

(** One search, then the answer.  When the model's first reply decides to
    search for [q], the search returns, and the model's second reply,
    given the context with that search, decides to answer, the flow runs
    Decide, Search, Decide, Answer and ends.  The context that the Answer
    state is shown is the answer of the second decision, which has taken
    the place of the search entry. *)
Theorem search_then_answer (P : posts) (question q : string)
    (hits : list search_hit) (items1 items2 : list (pyval * pyval))
    (answer : pyval) (fuel : nat) :
  let st0 := mk_state {[ "question" := VStr question ]} 0 in
  let st1 := set_shared "search_query" (VStr q) (called st0) in
  let st2 := set_shared "context" (VStr (search_entry q hits)) st1 in
  let st3 := set_shared "context" answer (called st2) in
  P = Pc.agent \/ P = Pc1.agent ->
  DecideAction_exec 0 (VStr question, VStr no_previous_search) = Ok (VDict items1) ->
  lookup_key "action" items1 = Some (VStr "search") ->
  lookup_key "search_query" items1 = Some (VStr q) ->
  DDGS_text (VStr q) 5 = Ok hits ->
  DecideAction_exec 1 (VStr question, VStr (search_entry q hits)) = Ok (VDict items2) ->
  lookup_key "action" items2 = Some (VStr "answer") ->
  lookup_key "answer" items2 = Some answer ->
  4 <= fuel ->
  run_agent P fuel question
    = Some (Ok (set_shared "answer"
                  (call_llm 2 (answer_prompt (VStr question) answer))
                  (called st3),
                [Decide; Search; Decide; Answer])).
Proof.
  intros st0 st1 st2 st3 HP Hexec1 Ha1 Hq1 Hhits Hexec2 Ha2 Hans2 Hfuel.
  replace fuel with (4 + (fuel - 4)) by lia.
  unfold run_agent. apply orch_more_fuel. fold st0.
  assert (Hs0 : run_node P Decide st0 = Ok (st1, VStr "search")).
  { apply (Decide_search_step P st0 (VStr question) items1);
      try assumption; reflexivity. }
  assert (Hs1 : run_node P Search st1 = Ok (st2, VStr "decide")).
  { apply (SearchWeb_run P st1 q "" hits); try assumption; reflexivity. }
  assert (Hs2 : run_node P Decide st2 = Ok (st3, VStr "answer")).
  { apply (Decide_other_step P st2 (VStr question) items2);
      try assumption; try discriminate; reflexivity. }
  assert (Hs3 : run_node P Answer st3
                = Ok (set_shared "answer"
                        (call_llm 2 (answer_prompt (VStr question) answer))
                        (called st3), VStr "done")).
  { apply (Answer_run P st3 (VStr question)). reflexivity. }
  cbn [orch]. rewrite Hs0.
  change (get_next_node Decide (VStr "search")) with (Ok (Some Search)).
  cbv iota. rewrite Hs1.
  change (get_next_node Search (VStr "decide")) with (Ok (Some Decide)).
  cbv iota. rewrite Hs2.
  change (get_next_node Decide (VStr "answer")) with (Ok (Some Answer)).
  cbv iota. rewrite Hs3. reflexivity.
Qed.

End WholeRuns.

Lemma search_then_answer_witness :
  exists st,
    run_agent (H := searching_world) Pc.agent 4 nobel_question
      = Some (Ok (st, [Decide; Search; Decide; Answer])) /\
    shared st !! "context" = Some (VStr "John Doe") /\
    shared st !! "answer" = Some (VStr "Hopfield and Hinton").
Proof.
  eexists. split.
  - apply (@search_then_answer searching_world Pc.agent nobel_question
             "Nobel Physics 2024" nobel_hits
             [(VStr "action", VStr "search");
              (VStr "search_query", VStr "Nobel Physics 2024")]
             [(VStr "action", VStr "answer"); (VStr "answer", VStr "John Doe")]
             (VStr "John Doe") 4);
      [left; reflexivity | vm_compute; reflexivity .. | lia].
  - split; vm_compute; reflexivity.
Defined.

Section Endings.
Context `{Collaborators}.

(** A decision without an action under [pc1.py], the parser's fallback
    record included: the flow ends after the one Decide state, no answer
    is stored, and [main] prints "No answer found". *)
Theorem pc1_undecided_run (question : string) (items : list (pyval * pyval))
    (args : list string) (fuel : nat) :
  DecideAction_exec 0 (VStr question, VStr no_previous_search) = Ok (VDict items) ->
  lookup_key "action" items = None ->
  main_question args = question ->
  1 <= fuel ->
  (exists st,
     run_agent Pc1.agent fuel question = Some (Ok (st, [Decide])) /\
     shared st !! "answer" = None) /\
  main Pc1.agent fuel args = Some (Ok (VStr "No answer found")).
Proof.
  intros Hexec Hno Hargs Hfuel.
  set (ctx := default (VStr "") (lookup_key "answer" items)).
  assert (Hrun : run_agent Pc1.agent fuel question
                 = Some (Ok (set_shared "context" ctx
                               (called (mk_state {[ "question" := VStr question ]} 0)),
                             [Decide]))).
  { replace fuel with (1 + (fuel - 1)) by lia.
    unfold run_agent. apply orch_more_fuel. cbn [orch].
    unfold run_node, DecideAction_prep, shared_item, shared_get.
    cbn [shared calls].
    rewrite lookup_singleton_eq, lookup_singleton_ne by discriminate.
    cbn [mbind result_bind mret result_ret default from_option id].
    rewrite Hexec. cbn [mbind result_bind decide_post Pc1.agent].
    unfold Pc1.DecideAction_post, dict_get. rewrite Hno.
    cbn [mbind result_bind mret result_ret eq_str].
    unfold ctx. destruct (lookup_key "answer" items); reflexivity. }
  split.
  - eexists. split; [exact Hrun |].
    cbn [shared set_shared called].
    rewrite lookup_insert_ne, lookup_singleton_ne by discriminate. reflexivity.
  - unfold main. rewrite Hargs, Hrun. unfold shared_get.
    cbn [shared set_shared called].
    rewrite lookup_insert_ne, lookup_singleton_ne by discriminate. reflexivity.
Qed.

(** A model that keeps asking for a search keeps the flow going: when every
    decision is to search and every search returns, no amount of fuel
    brings the run to an end. *)
Theorem search_forever (P : posts) (question : string) (fuel : nat) :
  P = Pc.agent \/ P = Pc1.agent ->
  (forall n prep_res, exists items q,
     DecideAction_exec n prep_res = Ok (VDict items) /\
     lookup_key "action" items = Some (VStr "search") /\
     lookup_key "search_query" items = Some (VStr q)) ->
  (forall q, exists hits, DDGS_text q 5 = Ok hits) ->
  run_agent P fuel question = None.
Proof.
  intros HP Hmodel Hsearch. unfold run_agent.
  assert (Hinv : forall fuel curr st,
    shared st !! "question" = Some (VStr question) ->
    (exists prev, shared_get st "context" (VStr "") = VStr prev) ->
    (curr = Decide \/
     curr = Search /\ exists q, shared st !! "search_query" = Some (VStr q)) ->
    orch P fuel curr st = None).
  { clear fuel. induction fuel as [|fuel IH]; intros curr st Hq [prev Hc] Hcurr;
      [reflexivity |].
    cbn [orch]. destruct Hcurr as [-> | [-> [q Hsq]]].
    - destruct (Hmodel (calls st)
                  (VStr question, shared_get st "context" (VStr no_previous_search)))
        as (items & q & Hexec & Ha & Hs).
      rewrite (Decide_search_step P st (VStr question) items (VStr q))
        by assumption.
      change (get_next_node Decide (VStr "search")) with (Ok (Some Search)).
      cbv iota. rewrite IH; [reflexivity | | |].
      + cbn [shared set_shared called].
        now rewrite lookup_insert_ne by discriminate.
      + exists prev. unfold shared_get in *. cbn [shared set_shared called].
        now rewrite lookup_insert_ne by discriminate.
      + right. split; [reflexivity |]. exists q.
        cbn [shared set_shared]. apply lookup_insert_eq.
    - destruct (Hsearch (VStr q)) as [hits Hhits].
      rewrite (SearchWeb_run P st q prev hits) by assumption.
      change (get_next_node Search (VStr "decide")) with (Ok (Some Decide)).
      cbv iota. rewrite IH; [reflexivity | | |].
      + cbn [shared set_shared].
        now rewrite lookup_insert_ne by discriminate.
      + eexists. unfold shared_get. cbn [shared set_shared].
        rewrite lookup_insert_eq. reflexivity.
      + left. reflexivity. }
  apply Hinv.
  - apply lookup_singleton_eq.
  - exists "". unfold shared_get. cbn [shared].
    now rewrite lookup_singleton_ne by discriminate.
  - left. reflexivity.
Qed.

End Endings.

(** The question on the command line is the first argument that starts
    with two dashes, less the dashes; arguments in front of it that do not
    start so, and all arguments behind it, are passed over. *)
Theorem main_question_first_flag (before after : list string) (question : string) :
  Forall (fun arg => startswith "--" arg = false) before ->
  main_question (before ++ ("--" +:+ question) :: after) = question.
Proof.
  induction 1 as [|arg before Harg _ IH]; cbn [app main_question].
  - reflexivity.
  - rewrite Harg. exact IH.
Qed.

(** Without an argument that starts with two dashes the question is the
    default one. *)
Theorem main_question_default (args : list string) :
  Forall (fun arg => startswith "--" arg = false) args ->
  main_question args = nobel_question.
Proof.
  induction 1 as [|arg args Harg _ IH]; cbn [main_question]; [reflexivity |].
  rewrite Harg. exact IH.
Qed.

Lemma pc1_undecided_run_witness :
  (exists st,
     run_agent (H := garbled_world) (Pc1.agent (H := garbled_world)) 1
               "Why is the sky blue?" = Some (Ok (st, [Decide])) /\
     shared st !! "answer" = None) /\
  main (H := garbled_world) (Pc1.agent (H := garbled_world)) 1
       ["-v"; "--Why is the sky blue?"; "--ignored"]
    = Some (Ok (VStr "No answer found")).
Proof.
  apply (@pc1_undecided_run garbled_world "Why is the sky blue?"
           [(VStr "raw", VStr "action: [search");
            (VStr "_error", VStr "while parsing a flow sequence")]);
    [vm_compute; reflexivity .. | lia].
Defined.

Lemma search_forever_witness :
  run_agent (H := stubborn_world) Pc.agent 1000 nobel_question = None.
Proof.
  apply (@search_forever stubborn_world); [left; reflexivity | |].
  - intros n [question context]. eexists _, _.
    repeat split; vm_compute; reflexivity.
  - intros q. eexists. reflexivity.
Defined.

Lemma main_question_first_flag_witness :
  main_question (["-v"; "verbose"] ++ ("--" +:+ "Why is the sky blue?") :: ["--ignored"])
    = "Why is the sky blue?".
Proof.
  apply main_question_first_flag. repeat constructor.
Defined.

Lemma main_question_default_witness :
  main_question ["-v"; "question"] = nobel_question.
Proof.
  apply main_question_default. repeat constructor.
Defined.
